(** * telescope: the Todoist client, the date formatter and the app shell

    A shallow embedding of [src/services/todoist.ts] and of the style
    computation of [src/App.tsx].

    The TypeScript code reads three ambient resources: the browser's
    [localStorage], the system clock ([new Date()]) and the network
    ([fetch]).  They are gathered in a [World] that is threaded through
    every function, together with the [throw] / rejected-promise channel. *)

From Stdlib Require Import ZArith String Ascii List Bool Lia.
From stdpp Require Import base option gmap strings.

Open Scope Z_scope.

(** ** JavaScript values the code handles *)

(** The error objects that can reach a caller.  [Error] and [RangeError]
    carry the message the code or date-fns gives them; the messages of the
    platform's [SyntaxError] (from [response.json()]) and [TypeError] (from
    a [fetch] that cannot reach the server) are engine specific and left
    out. *)
Inductive JsError : Type :=
  | Error (message : string)
  | RangeError (message : string)
  | SyntaxError
  | TypeError.

(** How a call ends: with a value, or by throwing.  For an [async]
    function these are the fulfilled and the rejected promise. *)
Inductive Completion (A : Type) : Type :=
  | Returns (a : A)
  | Throws (e : JsError).
Arguments Returns {A} a.
Arguments Throws {A} e.

#[local] Set Warnings "-register-all".

(** Decoded JSON.  [JObject []] is the object literal [{}]. *)
Inductive Json : Type :=
  | JNull
  | JBool (b : bool)
  | JNumber (n : Z)
  | JString (s : string)
  | JArray (items : list Json)
  | JObject (fields : list (string * Json)).

(** A JavaScript [Date]: a time value in milliseconds since the epoch, or
    the "Invalid Date" whose time value is NaN.  Both are objects. *)
Inductive Date : Type :=
  | ValidDate (time : Z)
  | InvalidDate.

(** Truthiness of a string: only the empty string is falsy. *)
Definition truthy (s : string) : bool := negb (String.eqb s "").

(** Truthiness of a [string | null] or [string | undefined]. *)
Definition truthy_opt (o : option string) : bool :=
  match o with
  | Some s => truthy s
  | None => false
  end.

(** [a || b] for a [string | null] on the left: [b] replaces a [null] and
    an empty string alike. *)
Definition or_else (a : option string) (b : string) : string :=
  match a with
  | Some s => if truthy s then s else b
  | None => b
  end.

(** What a template literal prints for a [string | null]. *)
Definition interpolate (o : option string) : string :=
  match o with
  | Some s => s
  | None => "null"
  end.

(** [a !== b] for a [string | null] on the left and a string on the right:
    [null] is different from every string. *)
Definition strict_neq (a : option string) (b : string) : bool :=
  match a with
  | Some s => negb (String.eqb s b)
  | None => true
  end.

(** [s.split(sep)] for a non-empty separator: the pieces of [s] between the
    successive, non-overlapping occurrences of [sep], found from the left.
    [skip] counts the characters of a found separator still to be dropped
    and [cur] is the piece being read. *)
Fixpoint split_from (sep : string) (skip : nat) (cur s : string) : list string :=
  match s with
  | EmptyString => [cur]
  | String c s' =>
      match skip with
      | S k => split_from sep k cur s'
      | O =>
          if String.prefix sep s
          then cur :: split_from sep (String.length sep - 1) "" s'
          else split_from sep 0 (cur +:+ String c "") s'
      end
  end.

Definition split (sep s : string) : list string := split_from sep 0 "" s.

(** ** The network *)

(** A JSON text, represented by the value it denotes. *)
Definition JsonText : Type := Json.

(** The second argument of [fetch], with the fields the code sets. *)
Record RequestInit : Type := {
  init_method : option string;
  init_body : option JsonText;
  init_headers : list (string * string)
}.

(** A request as it goes out. *)
Record Request : Type := {
  url : string;
  method : string;
  headers : list (string * string);
  body : option JsonText
}.

(** A response as the code reads it.  [jsonBody] is the value of the body
    read as a JSON text; it is [None] when the body is not one, which is
    the case of the empty body that comes with a 204. *)
Record Response : Type := {
  status : Z;
  statusText : string;
  jsonBody : option Json
}.

Inductive FetchOutcome : Type :=
  | Responded (r : Response)
  | NetworkFailure.

(** ** The world *)

Record World : Type := {
  (** the settings store *)
  localStorage : gmap string string;
  (** the successive readings of the system clock, in milliseconds *)
  clock : nat -> Z;
  (** how many readings were taken so far *)
  clockReads : nat;
  (** the remote side: its answer to a request, given the earlier calls *)
  server : list (Request * FetchOutcome) -> Request -> FetchOutcome;
  (** the network calls made so far with their outcomes, oldest first *)
  fetched : list (Request * FetchOutcome)
}.

Definition M (A : Type) : Type := World -> Completion A * World.

Definition ret {A} (a : A) : M A := fun w => (Returns a, w).

Definition throw {A} (e : JsError) : M A := fun w => (Throws e, w).

Definition bind {A B} (m : M A) (k : A -> M B) : M B :=
  fun w =>
    match m w with
    | (Returns a, w') => k a w'
    | (Throws e, w') => (Throws e, w')
    end.

Notation "'let*' x ':=' m 'in' k" := (bind m (fun x => k))
  (at level 10, x name, m at level 100, k at level 200).

(** The value or error a run ends with, and the world it leaves. *)
Definition result {A} (m : M A) (w : World) : Completion A := fst (m w).
Definition after {A} (m : M A) (w : World) : World := snd (m w).

(** [localStorage.getItem(key)]: the stored string, or [null]. *)
Definition getItem (key : string) : M (option string) :=
  fun w => (Returns (localStorage w !! key), w).

(** [new Date()]: the current reading of the clock. *)
Definition new_Date : M Date :=
  fun w =>
    (Returns (ValidDate (clock w (clockReads w))),
     {| localStorage := localStorage w;
        clock := clock w;
        clockReads := S (clockReads w);
        server := server w;
        fetched := fetched w |}).

(** The world after one more network call. *)
Definition logCall (w : World) (req : Request) (outcome : FetchOutcome) : World :=
  {| localStorage := localStorage w;
     clock := clock w;
     clockReads := clockReads w;
     server := server w;
     fetched := fetched w ++ [(req, outcome)] |}.

(** [fetch(url, init)]: the method defaults to GET; the call is recorded,
    and a network failure rejects with a [TypeError]. *)
Definition fetch (u : string) (init : RequestInit) : M Response :=
  fun w =>
    let req := {| url := u;
                  method := default "GET" (init_method init);
                  headers := init_headers init;
                  body := init_body init |} in
    let outcome := server w (fetched w) req in
    (match outcome with
     | Responded r => Returns r
     | NetworkFailure => Throws TypeError
     end,
     logCall w req outcome).

(** [response.json()]: the decoded body, or a rejection with a
    [SyntaxError] when the body is not a JSON text. *)
Definition json (response : Response) : M Json :=
  match jsonBody response with
  | Some v => ret v
  | None => throw SyntaxError
  end.

(** ** src/services/todoist.ts *)

Definition BASE_URL : string := "https://api.todoist.com/rest/v2".

Record TodoistDue : Type := {
  string_ : string;
  date : string;
  is_recurring : bool;
  datetime : option string;
  timezone : option string
}.

(** The object [localStorageKeys] of [../state/model], which is not part
    of the sources at hand: the names of the two settings the client reads. *)
Record LocalStorageKeys : Type := {
  todoistApiKey : string;
  todoistFilter : string
}.

(** [JSON.stringify(content)]: the text of a value, [undefined] for
    [undefined]. *)
Definition JSON_stringify (content : option Json) : option JsonText :=
  content.

Section Client.

Context (localStorageKeys : LocalStorageKeys).

Definition getApiKey : M string :=
  let* apiKey := getItem (todoistApiKey localStorageKeys) in
  match apiKey with
  | Some key =>
      if negb (truthy key) then throw (Error "No Todoist API key.")
      else ret key
  | None => throw (Error "No Todoist API key.")
  end.

(** The arguments of [fetch] are evaluated before the call, so
    [getApiKey()] inside the headers runs, and may throw, first. *)
Definition getData (endpoint : string) : M Json :=
  let* apiKey := getApiKey in
  let* response := fetch (BASE_URL +:+ "/" +:+ endpoint +:+ "?")
    {| init_method := None;
       init_body := None;
       init_headers := [("Content-Type", "application/json");
                        ("Authorization", "Bearer " +:+ apiKey)] |} in
  if status response =? 200 then json response
  else if status response =? 204 then ret (JObject [])
  else throw (Error (statusText response)).

Definition postData (endpoint : string) (content : option Json) : M Json :=
  let body := JSON_stringify content in
  let* apiKey := getApiKey in
  let* response := fetch (BASE_URL +:+ "/" +:+ endpoint +:+ "?")
    {| init_method := Some "POST";
       init_body := body;
       init_headers := [("Content-Type", "application/json");
                        ("Authorization", "Bearer " +:+ apiKey)] |} in
  if (status response =? 200) || (status response =? 204)
  then json response
  else throw (Error (statusText response)).

Definition getTasks : M Json :=
  let* stored := getItem (todoistFilter localStorageKeys) in
  let filter :=
    or_else stored "(today | overdue) & !assigned to: others" in
  getData ("tasks?filter=" +:+ filter).

Definition getProjects : M Json := getData "projects".

Definition closeTask (taskId : string) : M Json :=
  postData ("tasks/" +:+ taskId +:+ "/close") None.

End Client.

(** ** date-fns

    The two functions the formatter imports.  [parse dateString
    formatString referenceDate] always returns a [Date], the Invalid Date
    when the string does not match the format; [formatValid] is
    [formatRelative] on two valid dates.  Time zone and locale are those of
    the implementation. *)
Class DateFns : Type := {
  parse : string -> string -> Date -> Date;
  formatValid : Z -> Z -> string
}.

(** [formatRelative(date, baseDate)] throws a [RangeError] when one of the
    dates is invalid. *)
Definition formatRelative `{DateFns} (d baseDate : Date) : M string :=
  match d, baseDate with
  | ValidDate t, ValidDate b => ret (formatValid t b)
  | _, _ => throw (RangeError "Invalid time value")
  end.

Section Formatter.

Context `{DateFns}.

(** [dueDateTime] and [dueDate] are a [Date] or [undefined]; a [Date] is
    an object, so [if (dueDateTime)] asks only whether it is defined.
    [split] returns at least one piece, so that [[0]] is a string. *)
Definition relativeDateTime (due : TodoistDue) : M string :=
  let* dueDateTime :=
    match datetime due with
    | Some s =>
        if truthy s
        then let* now := new_Date in
             ret (Some (parse s "yyyy-MM-dd'T'HH:mm:ssXXX" now))
        else ret None
    | None => ret None
    end in
  match dueDateTime with
  | Some d =>
      let* now := new_Date in
      formatRelative d now
  | None =>
      let* dueDate :=
        if truthy (date due)
        then let* now := new_Date in
             ret (Some (parse (date due) "yyyy-MM-dd" now))
        else ret None in
      match dueDate with
      | Some d =>
          let* now := new_Date in
          let* formatted := formatRelative d now in
          ret (nth 0 (split " at" formatted) "")
      | None => ret ""
      end
  end.

End Formatter.

(** ** src/App.tsx *)

Section App.

(** The setting name [backgroundImgUrl] of [./settingNames], which is
    not part of the sources at hand. *)
Context (backgroundImgUrl : string).

(** The [imageStyle] that [App] computes for its background. *)
Definition App_imageStyle : M string :=
  let* backgroundImg := getItem backgroundImgUrl in
  ret (if strict_neq backgroundImg ""
       then "url(" +:+ interpolate backgroundImg
              +:+ ") no-repeat center center fixed"
       else "").

End App.

(** ** A reference implementation of the date-fns interface

    The theorems below hold for every implementation of [DateFns].  To run
    the formatter on concrete descriptors this module implements the
    interface in the manner of date-fns with the en-US locale, in the UTC
    time zone.  Its [parse] knows the two layouts the formatter uses and
    accepts the canonical spelling only (date-fns also accepts fewer
    digits). *)
Module Reference.

Definition digit (c : ascii) : option Z :=
  let n := Z.of_nat (nat_of_ascii c) in
  if (48 <=? n) && (n <=? 57) then Some (n - 48) else None.

(** Exactly [k] decimal digits. *)
Fixpoint digits (k : nat) (acc : Z) (s : string) : option (Z * string) :=
  match k, s with
  | O, _ => Some (acc, s)
  | S k', String c s' => d ← digit c; digits k' (10 * acc + d) s'
  | S _, EmptyString => None
  end.

Definition literal (c : ascii) (s : string) : option string :=
  match s with
  | String c' s' => if Ascii.eqb c c' then Some s' else None
  | EmptyString => None
  end.

Definition isLeap (y : Z) : bool :=
  ((y mod 4 =? 0) && negb (y mod 100 =? 0)) || (y mod 400 =? 0).

Definition daysInMonth (y m : Z) : Z :=
  if m =? 2 then (if isLeap y then 29 else 28)
  else if (m =? 4) || (m =? 6) || (m =? 9) || (m =? 11) then 30
  else 31.

(** Days between 1970-01-01 and the given day of the Gregorian calendar. *)
Definition daysFromCivil (y m d : Z) : Z :=
  let y' := if m <=? 2 then y - 1 else y in
  let era := y' / 400 in
  let yoe := y' - era * 400 in
  let doy := (153 * ((m + 9) mod 12) + 2) / 5 + d - 1 in
  let doe := yoe * 365 + yoe / 4 - yoe / 100 + doy in
  era * 146097 + doe - 719468.

Definition civilFromDays (days : Z) : Z * Z * Z :=
  let z := days + 719468 in
  let era := z / 146097 in
  let doe := z - era * 146097 in
  let yoe := (doe - doe / 1460 + doe / 36524 - doe / 146096) / 365 in
  let doy := doe - (365 * yoe + yoe / 4 - yoe / 100) in
  let mp := (5 * doy + 2) / 153 in
  let d := doy - (153 * mp + 2) / 5 + 1 in
  let m := if mp <? 10 then mp + 3 else mp - 9 in
  let y := yoe + era * 400 in
  (if m <=? 2 then y + 1 else y, m, d).

(** [yyyy-MM-dd]: the day number, and what follows in the string. *)
Definition readDate (s : string) : option (Z * string) :=
  '(y, s) ← digits 4 0 s;
  s ← literal "-" s;
  '(m, s) ← digits 2 0 s;
  s ← literal "-" s;
  '(d, s) ← digits 2 0 s;
  if (1 <=? y) && (1 <=? m) && (m <=? 12) && (1 <=? d) && (d <=? daysInMonth y m)
  then Some (daysFromCivil y m d, s)
  else None.

(** [HH:mm:ss]: the second of the day. *)
Definition readTime (s : string) : option (Z * string) :=
  '(h, s) ← digits 2 0 s;
  s ← literal ":" s;
  '(mi, s) ← digits 2 0 s;
  s ← literal ":" s;
  '(sec, s) ← digits 2 0 s;
  if (h <=? 23) && (mi <=? 59) && (sec <=? 59)
  then Some (h * 3600 + mi * 60 + sec, s)
  else None.

(** [XXX]: [Z] or [+hh:mm] or [-hh:mm], in minutes east of UTC. *)
Definition readOffset (s : string) : option (Z * string) :=
  match s with
  | String c s' =>
      if Ascii.eqb c "Z" then Some (0, s')
      else
        sign ← (if Ascii.eqb c "+" then Some 1
                else if Ascii.eqb c "-" then Some (-1) else None);
        '(h, s) ← digits 2 0 s';
        s ← literal ":" s;
        '(mi, s) ← digits 2 0 s;
        if (h <=? 23) && (mi <=? 59) then Some (sign * (h * 60 + mi), s) else None
  | EmptyString => None
  end.

Definition readDateTime (s : string) : option (Z * string) :=
  '(days, s) ← readDate s;
  s ← literal "T" s;
  '(secs, s) ← readTime s;
  '(offset, s) ← readOffset s;
  Some ((days * 86400 + secs - offset * 60) * 1000, s).

Definition whole (r : option (Z * string)) : Date :=
  match r with
  | Some (t, EmptyString) => ValidDate t
  | _ => InvalidDate
  end.

Definition parse (dateString formatString : string) (referenceDate : Date) : Date :=
  if String.eqb formatString "yyyy-MM-dd"
  then whole ('(days, s) ← readDate dateString; Some (days * 86400000, s))
  else if String.eqb formatString "yyyy-MM-dd'T'HH:mm:ssXXX"
  then whole (readDateTime dateString)
  else InvalidDate.

Definition digitChar (d : Z) : ascii := ascii_of_nat (48 + Z.to_nat (d mod 10)).

Definition two (n : Z) : string :=
  String (digitChar (n / 10)) (String (digitChar n) "").

Definition four (n : Z) : string := two (n / 100) +:+ two n.

Definition dayOf (t : Z) : Z := t / 86400000.

(** [eeee]; 1970-01-01 was a Thursday. *)
Definition weekday (t : Z) : string :=
  nth (Z.to_nat ((dayOf t + 4) mod 7))
    ["Sunday"; "Monday"; "Tuesday"; "Wednesday"; "Thursday"; "Friday"; "Saturday"] "".

(** [p], that is [h:mm a]. *)
Definition clockTime (t : Z) : string :=
  let minute := (t / 60000) mod 1440 in
  let h := minute / 60 in
  let h12 := if h mod 12 =? 0 then 12 else h mod 12 in
  (if h12 <? 10 then String (digitChar h12) "" else two h12)
    +:+ ":" +:+ two (minute mod 60) +:+ (if h <? 12 then " AM" else " PM").

(** [P], that is [MM/dd/yyyy]. *)
Definition shortDate (t : Z) : string :=
  let '(y, m, d) := civilFromDays (dayOf t) in
  two m +:+ "/" +:+ two d +:+ "/" +:+ four y.

Definition formatValid (t b : Z) : string :=
  let diff := dayOf t - dayOf b in
  if diff <? -6 then shortDate t
  else if diff <? -1 then "last " +:+ weekday t +:+ " at " +:+ clockTime t
  else if diff <? 0 then "yesterday at " +:+ clockTime t
  else if diff <? 1 then "today at " +:+ clockTime t
  else if diff <? 2 then "tomorrow at " +:+ clockTime t
  else if diff <? 7 then weekday t +:+ " at " +:+ clockTime t
  else shortDate t.

Definition dateFns : DateFns := Build_DateFns parse formatValid.

End Reference.

(** ** What the statements below speak of *)

(** [r] is [s] with everything from the first occurrence of [sep] onward
    removed: either [sep] occurs in [s], [r] is what comes before one
    occurrence and no occurrence starts earlier; or [sep] does not occur
    and [r] is [s]. *)
Definition removed_from_first (sep s r : string) : Prop :=
  (exists rest, s = r +:+ sep +:+ rest /\
     forall p q, s = p +:+ sep +:+ q -> (String.length r <= String.length p)%nat)
  \/ (r = s /\ forall p q, s <> p +:+ sep +:+ q).

(** [sub] occurs somewhere in [s]. *)
Definition occurs (sub s : string) : Prop :=
  exists p q, s = p +:+ sub +:+ q.

(** Everything before the first occurrence of [sep], computed. *)
Fixpoint before (sep s : string) : string :=
  match s with
  | EmptyString => ""
  | String c s' => if String.prefix sep s then "" else String c (before sep s')
  end.

(** The headers of every call of the client. *)
Definition authorized (apiKey : string) : list (string * string) :=
  [("Content-Type", "application/json"); ("Authorization", "Bearer " +:+ apiKey)].

(** The call of the client to [endpoint]. *)
Definition call (meth endpoint apiKey : string) (payload : option JsonText) : Request :=
  {| url := BASE_URL +:+ "/" +:+ endpoint +:+ "?";
     method := meth;
     headers := authorized apiKey;
     body := payload |}.

(** What [getData] makes of the outcome of its call. *)
Definition getOutcome (outcome : FetchOutcome) : Completion Json :=
  match outcome with
  | Responded r =>
      if status r =? 200
      then match jsonBody r with Some v => Returns v | None => Throws SyntaxError end
      else if status r =? 204 then Returns (JObject [])
      else Throws (Error (statusText r))
  | NetworkFailure => Throws TypeError
  end.

(** What [postData] makes of the outcome of its call. *)
Definition postOutcome (outcome : FetchOutcome) : Completion Json :=
  match outcome with
  | Responded r =>
      if (status r =? 200) || (status r =? 204)
      then match jsonBody r with Some v => Returns v | None => Throws SyntaxError end
      else Throws (Error (statusText r))
  | NetworkFailure => Throws TypeError
  end.

(** The filter [getTasks] falls back on. *)
Definition defaultFilter : string := "(today | overdue) & !assigned to: others".

(** In the run of [m] from [w], the first network call was answered by
    [r], and the calls in [later] followed. *)
Definition answered {A} (m : M A) (w : World) (r : Response)
    (later : list (Request * FetchOutcome)) : Prop :=
  exists req, fetched (after m w) = fetched w ++ (req, Responded r) :: later.

(** The network calls that the run of [m] from [w] makes. *)
Definition calls {A} (m : M A) (w : World) : list Request :=
  fst <$> drop (length (fetched w)) (fetched (after m w)).

(** Every clock reading from now on is [now]. *)
Definition reads_now (w : World) (now : Z) : Prop :=
  forall k, (clockReads w <= k)%nat -> clock w k = now.

(** The world once [value] is stored under [key], as
    [localStorage.setItem(key, value)] leaves it. *)
Definition storeSetting (key value : string) (w : World) : World :=
  {| localStorage := <[ key := value ]> (localStorage w);
     clock := clock w;
     clockReads := clockReads w;
     server := server w;
     fetched := fetched w |}.

(** ** Concrete worlds *)

Module Fixture.

Definition keys : LocalStorageKeys :=
  {| todoistApiKey := "todoistApiKey"; todoistFilter := "todoistFilter" |}.

(** A world with the given settings, a clock that stands at [now] and a
    server with one answer to everything. *)
Definition world (settings : gmap string string) (now : Z)
    (answer : FetchOutcome) : World :=
  {| localStorage := settings;
     clock := fun _ => now;
     clockReads := 0;
     server := fun _ _ => answer;
     fetched := [] |}.

Definition noContent : Response :=
  {| status := 204; statusText := "No Content"; jsonBody := None |}.

Definition forbidden : Response :=
  {| status := 403; statusText := "Forbidden"; jsonBody := None |}.

Definition ok (v : Json) : Response :=
  {| status := 200; statusText := "OK"; jsonBody := Some v |}.

(** 2024-03-10T09:00:00Z *)
Definition march10_9am : Z := 1710061200000.

Definition apiKey : string := "0123456789abcdef0123456789abcdef01234567".

(** Only the key is stored. *)
Definition keyOnly : gmap string string := {[ "todoistApiKey" := apiKey ]}.

(** The key and a filter are stored. *)
Definition keyAndFilter (f : string) : gmap string string :=
  <[ "todoistFilter" := f ]> keyOnly.

(** Only a filter is stored. *)
Definition filterOnly : gmap string string := {[ "todoistFilter" := "p1" ]}.

(** No key is stored; the server would answer. *)
Definition signedOut : World := world filterOnly 0 (Responded (ok (JArray []))).

(** The key is stored and the server answers 204, as it does to a close. *)
Definition closing : World := world keyOnly 0 (Responded noContent).

(** The key is stored and the server refuses it. *)
Definition refused : World := world keyOnly 0 (Responded forbidden).

(** The key and the filter [f] are stored. *)
Definition filtered (f : string) : World :=
  world (keyAndFilter f) 0 (Responded (ok (JArray []))).

(** The key is stored and no filter. *)
Definition unfiltered : World := world keyOnly 0 (Responded (ok (JArray []))).

Definition due (d : string) (dt : option string) : TodoistDue :=
  {| string_ := "Mar 10"; date := d; is_recurring := false;
     datetime := dt; timezone := None |}.

(** Nothing is stored, the network is down, and it is 9 o'clock on
    Sunday 10 March 2024. *)
Definition sunday : World := world ∅ march10_9am NetworkFailure.

(** The same moment in a world with settings and a server. *)
Definition sundayOnline : World :=
  world {[ "todoistApiKey" := "0123456789abcdef0123456789abcdef01234567" ]}
    march10_9am (Responded noContent).

Definition backgroundImgUrl : string := "backgroundImgUrl".


(** An empty key is stored. *)
Definition blankKey : World :=
  world {[ "todoistApiKey" := "" ]} 0 (Responded (ok (JArray []))).

Definition inbox : Json :=
  JArray [JObject [("id", JString "220474322"); ("name", JString "Inbox")]].

(** The key is stored and the server answers with the projects. *)
Definition listing : World := world keyOnly 0 (Responded (ok inbox)).

(** The key is stored and the server answers 200 with a body that is not
    a JSON text. *)
Definition garbled : Response :=
  {| status := 200; statusText := "OK"; jsonBody := None |}.

End Fixture.

(** * Facts *)

(** ** Strings *)

Lemma append_cons (c : ascii) (s t : string) :
  String c s +:+ t = String c (s +:+ t).
Proof. reflexivity. Qed.

Lemma append_nil (s : string) : "" +:+ s = s.
Proof. reflexivity. Qed.

Lemma prefix_occurs (p s : string) :
  String.prefix p s = true <-> exists q, s = p +:+ q.
Proof.
  revert s. induction p as [|c p IH]; intros s; simpl.
  - split; [intros _; exists s; reflexivity | destruct s; reflexivity].
  - destruct s as [|c' s]; simpl.
    + split; [discriminate | intros [q Hq]; discriminate].
    + destruct (ascii_dec c c') as [->|Hne].
      * rewrite IH. split; intros [q Hq]; exists q;
          rewrite append_cons in *; congruence.
      * split; [discriminate | intros [q Hq]; rewrite append_cons in Hq; congruence].
Qed.

Lemma append_nil_r (s : string) : s +:+ "" = s.
Proof. induction s as [|c s IH]; [reflexivity | rewrite append_cons, IH; reflexivity]. Qed.

Lemma append_assoc (s t u : string) : (s +:+ t) +:+ u = s +:+ (t +:+ u).
Proof.
  induction s as [|c s IH]; [reflexivity |].
  rewrite !append_cons, IH. reflexivity.
Qed.

Lemma length_append (s t : string) :
  String.length (s +:+ t) = (String.length s + String.length t)%nat.
Proof.
  induction s as [|c s IH]; [reflexivity |].
  rewrite append_cons. simpl. rewrite IH. reflexivity.
Qed.

(** [before] is a prefix of the string, and what follows it is nothing
    or begins with the separator. *)
Lemma before_split (sep s : string) :
  exists rest, s = before sep s +:+ rest /\
    (rest = "" \/ String.prefix sep rest = true).
Proof.
  induction s as [|c s (rest & Hs & Hrest)].
  - exists "". split; [reflexivity | left; reflexivity].
  - cbn [before]. destruct (String.prefix sep (String c s)) eqn:Hp.
    + exists (String c s). split; [reflexivity | right; exact Hp].
    + exists rest. rewrite append_cons, <- Hs. split; [reflexivity | exact Hrest].
Qed.

(** No occurrence of the separator starts inside [before]. *)
Lemma before_first (sep s p q : string) :
  s = p +:+ sep +:+ q -> (String.length (before sep s) <= String.length p)%nat.
Proof.
  revert p. induction s as [|c s IH]; intros p Hs.
  - simpl. lia.
  - cbn [before]. destruct (String.prefix sep (String c s)) eqn:Hp.
    + simpl. lia.
    + destruct p as [|c' p].
      * rewrite append_nil in Hs.
        assert (String.prefix sep (String c s) = true) as Ht
          by (apply prefix_occurs; exists q; exact Hs).
        congruence.
      * rewrite append_cons in Hs. injection Hs as -> Hs.
        specialize (IH p Hs). simpl. lia.
Qed.

(** A string in which the separator does not occur is left whole. *)
Lemma before_absent (sep s : string) :
  ~ occurs sep s -> before sep s = s.
Proof.
  intros Hno. destruct (before_split sep s) as (rest & Hs & [-> | Hp]).
  - rewrite append_nil_r in Hs. symmetry. exact Hs.
  - exfalso. apply Hno. apply prefix_occurs in Hp as [q ->].
    exists (before sep s), q. exact Hs.
Qed.

(** A non-empty separator does not occur in [before]. *)
Lemma before_clean (sep s : string) :
  sep <> "" -> ~ occurs sep (before sep s).
Proof.
  intros Hsep (p & q & Hb).
  destruct (before_split sep s) as (rest & Hs & _).
  assert (s = p +:+ sep +:+ (q +:+ rest)) as Hocc.
  { rewrite Hs at 1. rewrite Hb. rewrite !append_assoc. reflexivity. }
  apply before_first in Hocc. rewrite Hb in Hocc.
  rewrite !length_append in Hocc.
  destruct sep; [congruence | simpl in Hocc; lia].
Qed.

(** [before] meets the description of the removal. *)
Lemma before_removed (sep s : string) :
  removed_from_first sep s (before sep s).
Proof.
  destruct (before_split sep s) as (rest & Hs & [-> | Hp]).
  - rewrite append_nil_r in Hs. destruct sep as [|c sep].
    + left. exists "". split; [| intros p q; apply before_first].
      rewrite append_nil, append_nil_r. exact Hs.
    + right. split; [symmetry; exact Hs |]. intros p q Hocc.
      pose proof (before_first _ _ _ _ Hocc) as Hlen.
      rewrite <- Hs, Hocc, !length_append in Hlen. simpl in Hlen. lia.
  - left. apply prefix_occurs in Hp as [q ->]. exists q.
    split; [exact Hs | intros p q'; apply before_first].
Qed.

(** The first piece of a split is what comes before the first separator. *)
Lemma split_from_first (sep cur s : string) :
  nth 0 (split_from sep 0 cur s) "" = cur +:+ before sep s.
Proof.
  revert cur. induction s as [|c s IH]; intros cur.
  - simpl. rewrite append_nil_r. reflexivity.
  - cbn [split_from before]. destruct (String.prefix sep (String c s)).
    + simpl. rewrite append_nil_r. reflexivity.
    + rewrite IH, append_assoc. reflexivity.
Qed.

Lemma split_first (sep s : string) :
  nth 0 (split sep s) "" = before sep s.
Proof. apply split_from_first. Qed.

(** [split] never returns the empty array. *)
Lemma split_from_nonempty (sep : string) (skip : nat) (cur s : string) :
  split_from sep skip cur s <> [].
Proof.
  revert skip cur. induction s as [|c s IH]; intros skip cur; cbn [split_from].
  - discriminate.
  - destruct skip; [destruct (String.prefix sep (String c s)) |];
      first [apply IH | discriminate].
Qed.

(** ** The client *)

Lemma log_grows {A} (l : list A) (x : A) (more : list A) : l <> l ++ x :: more.
Proof.
  intros H. apply (f_equal (@length A)) in H.
  rewrite length_app in H. simpl in H. lia.
Qed.

Lemma truthy_true (s : string) : truthy s = true <-> s <> "".
Proof.
  unfold truthy. destruct (String.eqb_spec s ""); simpl; split; congruence.
Qed.

Section ClientFacts.

Context (keys : LocalStorageKeys).

Lemma getApiKey_missing (w : World) :
  truthy_opt (localStorage w !! todoistApiKey keys) = false ->
  getApiKey keys w = (Throws (Error "No Todoist API key."), w).
Proof.
  unfold getApiKey, bind, getItem, truthy_opt. intros H.
  destruct (localStorage w !! todoistApiKey keys) as [key|]; [| reflexivity].
  rewrite H. reflexivity.
Qed.

Lemma getApiKey_stored (w : World) (key : string) :
  localStorage w !! todoistApiKey keys = Some key -> key <> "" ->
  getApiKey keys w = (Returns key, w).
Proof.
  unfold getApiKey, bind, getItem. intros -> Hkey.
  apply truthy_true in Hkey. rewrite Hkey. reflexivity.
Qed.

Lemma getData_missing (endpoint : string) (w : World) :
  truthy_opt (localStorage w !! todoistApiKey keys) = false ->
  getData keys endpoint w = (Throws (Error "No Todoist API key."), w).
Proof.
  intros H. unfold getData, bind. rewrite (getApiKey_missing w H). reflexivity.
Qed.

Lemma postData_missing (endpoint : string) (content : option Json) (w : World) :
  truthy_opt (localStorage w !! todoistApiKey keys) = false ->
  postData keys endpoint content w = (Throws (Error "No Todoist API key."), w).
Proof.
  intros H. unfold postData, bind. rewrite (getApiKey_missing w H). reflexivity.
Qed.

Lemma getData_stored (endpoint : string) (w : World) (key : string) :
  localStorage w !! todoistApiKey keys = Some key -> key <> "" ->
  let req := call "GET" endpoint key None in
  let outcome := server w (fetched w) req in
  getData keys endpoint w = (getOutcome outcome, logCall w req outcome).
Proof.
  intros Hk Hne. unfold getData, bind. rewrite (getApiKey_stored w key Hk Hne).
  unfold fetch, call, authorized, getOutcome, json, ret, throw. simpl.
  destruct (server w (fetched w) _) as [r|]; [| reflexivity].
  destruct (status r =? 200); [destruct (jsonBody r); reflexivity |].
  destruct (status r =? 204); reflexivity.
Qed.

Lemma postData_stored (endpoint : string) (content : option Json)
    (w : World) (key : string) :
  localStorage w !! todoistApiKey keys = Some key -> key <> "" ->
  let req := call "POST" endpoint key content in
  let outcome := server w (fetched w) req in
  postData keys endpoint content w = (postOutcome outcome, logCall w req outcome).
Proof.
  intros Hk Hne. unfold postData, bind. rewrite (getApiKey_stored w key Hk Hne).
  unfold fetch, call, authorized, postOutcome, json, ret, throw, JSON_stringify. simpl.
  destruct (server w (fetched w) _) as [r|]; [| reflexivity].
  destruct ((status r =? 200) || (status r =? 204)); [destruct (jsonBody r) |]; reflexivity.
Qed.

(** Whether a usable key is stored decides everything else. *)
Lemma key_cases (w : World) :
  truthy_opt (localStorage w !! todoistApiKey keys) = false \/
  exists key, localStorage w !! todoistApiKey keys = Some key /\ key <> "".
Proof.
  destruct (localStorage w !! todoistApiKey keys) as [key|]; [| left; reflexivity].
  simpl. destruct (truthy key) eqn:Hk; [right | left; reflexivity].
  exists key. split; [reflexivity | apply truthy_true; exact Hk].
Qed.

(** A network call of [getData] is its only one, goes to the endpoint
    with the stored key, and its outcome decides the result. *)
Lemma getData_issued (endpoint : string) (w : World) (req : Request)
    (outcome : FetchOutcome) (later : list (Request * FetchOutcome)) :
  fetched (after (getData keys endpoint) w) = fetched w ++ (req, outcome) :: later ->
  exists key, localStorage w !! todoistApiKey keys = Some key /\ key <> "" /\
    req = call "GET" endpoint key None /\ later = [] /\
    result (getData keys endpoint) w = getOutcome outcome.
Proof.
  unfold after, result. destruct (key_cases w) as [Hno | (key & Hk & Hne)].
  - rewrite (getData_missing endpoint w Hno). simpl. intros H.
    exfalso. exact (log_grows _ _ _ H).
  - rewrite (getData_stored endpoint w key Hk Hne). simpl. intros H.
    apply app_inv_head in H. injection H as <- <- <-.
    exists key. repeat split; assumption.
Qed.

Lemma postData_issued (endpoint : string) (content : option Json) (w : World)
    (req : Request) (outcome : FetchOutcome) (later : list (Request * FetchOutcome)) :
  fetched (after (postData keys endpoint content) w)
    = fetched w ++ (req, outcome) :: later ->
  exists key, localStorage w !! todoistApiKey keys = Some key /\ key <> "" /\
    req = call "POST" endpoint key content /\ later = [] /\
    result (postData keys endpoint content) w = postOutcome outcome.
Proof.
  unfold after, result. destruct (key_cases w) as [Hno | (key & Hk & Hne)].
  - rewrite (postData_missing endpoint content w Hno). simpl. intros H.
    exfalso. exact (log_grows _ _ _ H).
  - rewrite (postData_stored endpoint content w key Hk Hne). simpl. intros H.
    apply app_inv_head in H. injection H as <- <- <-.
    exists key. repeat split; assumption.
Qed.

(** With a key stored, the answer of the server to the call is the
    answer the run gets. *)
Lemma getData_answered (endpoint : string) (w : World) (key : string) (r : Response) :
  localStorage w !! todoistApiKey keys = Some key -> key <> "" ->
  server w (fetched w) (call "GET" endpoint key None) = Responded r ->
  answered (getData keys endpoint) w r [].
Proof.
  intros Hk Hne Hr. exists (call "GET" endpoint key None). unfold after.
  rewrite (getData_stored endpoint w key Hk Hne). simpl. rewrite Hr. reflexivity.
Qed.

Lemma postData_answered (endpoint : string) (content : option Json) (w : World)
    (key : string) (r : Response) :
  localStorage w !! todoistApiKey keys = Some key -> key <> "" ->
  server w (fetched w) (call "POST" endpoint key content) = Responded r ->
  answered (postData keys endpoint content) w r [].
Proof.
  intros Hk Hne Hr. exists (call "POST" endpoint key content). unfold after.
  rewrite (postData_stored endpoint content w key Hk Hne). simpl. rewrite Hr.
  reflexivity.
Qed.

(** [getTasks] is [getData] on the endpoint with the filter in effect. *)
Lemma getTasks_unfold (w : World) :
  getTasks keys w =
  getData keys
    ("tasks?filter=" +:+ or_else (localStorage w !! todoistFilter keys) defaultFilter) w.
Proof. reflexivity. Qed.

(** C1: in every state in which no API key is stored, getTasks,
    getProjects and closeTask each fail with the error "No Todoist API
    key." and the log of network calls is as it was: no call is made. *)
Theorem missing_credential_fails_before_fetch (w : World) :
  localStorage w !! todoistApiKey keys = None ->
  (result (getTasks keys) w = Throws (Error "No Todoist API key.") /\
   fetched (after (getTasks keys) w) = fetched w) /\
  (result (getProjects keys) w = Throws (Error "No Todoist API key.") /\
   fetched (after (getProjects keys) w) = fetched w) /\
  (forall taskId,
     result (closeTask keys taskId) w = Throws (Error "No Todoist API key.") /\
     fetched (after (closeTask keys taskId) w) = fetched w).
Proof.
  intros Hnone.
  assert (truthy_opt (localStorage w !! todoistApiKey keys) = false) as Hno
    by (rewrite Hnone; reflexivity).
  unfold result, after. repeat split.
  - rewrite getTasks_unfold, getData_missing; [reflexivity | exact Hno].
  - rewrite getTasks_unfold, getData_missing; [reflexivity | exact Hno].
  - unfold getProjects. rewrite getData_missing; [reflexivity | exact Hno].
  - unfold getProjects. rewrite getData_missing; [reflexivity | exact Hno].
  - unfold closeTask. rewrite postData_missing; [reflexivity | exact Hno].
  - unfold closeTask. rewrite postData_missing; [reflexivity | exact Hno].
Qed.

Lemma getTasks_issued (w : World) (req : Request) (outcome : FetchOutcome)
    (later : list (Request * FetchOutcome)) :
  fetched (after (getTasks keys) w) = fetched w ++ (req, outcome) :: later ->
  exists key, localStorage w !! todoistApiKey keys = Some key /\ key <> "" /\
    req = call "GET"
            ("tasks?filter=" +:+
               or_else (localStorage w !! todoistFilter keys) defaultFilter)
            key None /\
    later = [] /\
    result (getTasks keys) w = getOutcome outcome.
Proof. exact (getData_issued _ w req outcome later). Qed.

Lemma getOutcome_204 (r : Response) :
  status r = 204 -> getOutcome (Responded r) = Returns (JObject []).
Proof. intros H. unfold getOutcome. rewrite H. reflexivity. Qed.

Lemma getOutcome_error (r : Response) :
  status r <> 200 -> status r <> 204 ->
  getOutcome (Responded r) = Throws (Error (statusText r)).
Proof.
  intros H1 H2. unfold getOutcome.
  destruct (Z.eqb_spec (status r) 200); [contradiction |].
  destruct (Z.eqb_spec (status r) 204); [contradiction | reflexivity].
Qed.

Lemma postOutcome_error (r : Response) :
  status r <> 200 -> status r <> 204 ->
  postOutcome (Responded r) = Throws (Error (statusText r)).
Proof.
  intros H1 H2. unfold postOutcome.
  destruct (Z.eqb_spec (status r) 200); [contradiction |].
  destruct (Z.eqb_spec (status r) 204); [contradiction | reflexivity].
Qed.

(** C3: when the call is answered with status 204, getTasks and
    getProjects return the empty object.  closeTask does not: it returns
    what [response.json()] gives, and for a body that is not a JSON text,
    as the empty body of a 204, that is a rejection with a SyntaxError. *)
Theorem no_content_result (w : World) (r : Response)
    (later : list (Request * FetchOutcome)) :
  status r = 204 ->
  (answered (getTasks keys) w r later ->
     result (getTasks keys) w = Returns (JObject [])) /\
  (answered (getProjects keys) w r later ->
     result (getProjects keys) w = Returns (JObject [])) /\
  (forall taskId, answered (closeTask keys taskId) w r later ->
     result (closeTask keys taskId) w =
       match jsonBody r with
       | Some v => Returns v
       | None => Throws SyntaxError
       end).
Proof.
  intros H204. split; [| split].
  - intros [req Hlog]. apply getTasks_issued in Hlog as (_ & _ & _ & _ & _ & ->).
    apply getOutcome_204, H204.
  - intros [req Hlog]. apply getData_issued in Hlog as (_ & _ & _ & _ & _ & Hres).
    unfold getProjects. rewrite Hres. apply getOutcome_204, H204.
  - intros taskId [req Hlog].
    apply postData_issued in Hlog as (_ & _ & _ & _ & _ & Hres).
    unfold closeTask. rewrite Hres. unfold postOutcome. rewrite H204. reflexivity.
Qed.

(** C4: for each of getTasks, getProjects and closeTask, in a world where
    a key is stored and the server answers the call of the operation with
    a status that is neither 200 nor 204, the operation fails with an
    error whose message is the status text of the response, and that call
    is the only one it makes: there is no retry. *)
Theorem other_status_fails_with_status_text (w : World) (key : string)
    (r : Response) :
  localStorage w !! todoistApiKey keys = Some key -> key <> "" ->
  status r <> 200 -> status r <> 204 ->
  (forall req,
     req = call "GET"
             ("tasks?filter=" +:+
                or_else (localStorage w !! todoistFilter keys)
                  "(today | overdue) & !assigned to: others")
             key None ->
     server w (fetched w) req = Responded r ->
     result (getTasks keys) w = Throws (Error (statusText r)) /\
     fetched (after (getTasks keys) w) = fetched w ++ [(req, Responded r)]) /\
  (forall req,
     req = call "GET" "projects" key None ->
     server w (fetched w) req = Responded r ->
     result (getProjects keys) w = Throws (Error (statusText r)) /\
     fetched (after (getProjects keys) w) = fetched w ++ [(req, Responded r)]) /\
  (forall taskId req,
     req = call "POST" ("tasks/" +:+ taskId +:+ "/close") key None ->
     server w (fetched w) req = Responded r ->
     result (closeTask keys taskId) w = Throws (Error (statusText r)) /\
     fetched (after (closeTask keys taskId) w) = fetched w ++ [(req, Responded r)]).
Proof.
  intros Hk Hne H200 H204.
  split; [| split]; [intros req -> Hr | intros req -> Hr | intros taskId req -> Hr];
    unfold result, after.
  - rewrite getTasks_unfold, (getData_stored _ w key Hk Hne).
    cbn [fst snd]. unfold logCall. cbn [fetched]. unfold defaultFilter. rewrite Hr.
    split; [apply getOutcome_error; assumption | reflexivity].
  - unfold getProjects. rewrite (getData_stored _ w key Hk Hne).
    cbn [fst snd]. unfold logCall. cbn [fetched]. rewrite Hr.
    split; [apply getOutcome_error; assumption | reflexivity].
  - unfold closeTask. rewrite (postData_stored _ _ w key Hk Hne).
    cbn [fst snd]. unfold logCall. cbn [fetched]. unfold JsonText in Hr. rewrite Hr.
    split; [apply postOutcome_error; assumption | reflexivity].
Qed.

Lemma getData_calls (endpoint : string) (w : World) (key : string) :
  localStorage w !! todoistApiKey keys = Some key -> key <> "" ->
  calls (getData keys endpoint) w = [call "GET" endpoint key None].
Proof.
  intros Hk Hne. unfold calls, after.
  rewrite (getData_stored endpoint w key Hk Hne). simpl.
  rewrite drop_app_length. reflexivity.
Qed.

Lemma or_else_stored (f d : string) : f <> "" -> or_else (Some f) d = f.
Proof. intros Hf. apply truthy_true in Hf. simpl. rewrite Hf. reflexivity. Qed.



End ClientFacts.

(** ** The formatter *)

Section FormatterFacts.

Context `{DateFns}.

(** C6: when the datetime field is present and parses under the layout
    yyyy-MM-dd'T'HH:mm:ssXXX, relativeDateTime returns that moment
    formatted relative to the current one, as formatRelative gives it,
    time of day included, whatever the date field holds. *)
Theorem datetime_takes_precedence (due : TodoistDue) (w : World) (s : string) (t : Z) :
  datetime due = Some s -> s <> "" ->
  parse s "yyyy-MM-dd'T'HH:mm:ssXXX" (ValidDate (clock w (clockReads w))) = ValidDate t ->
  result (relativeDateTime due) w =
    Returns (formatValid t (clock w (S (clockReads w)))).
Proof.
  intros Hdt Hs Hparse. apply truthy_true in Hs.
  unfold result, relativeDateTime, bind, new_Date, formatRelative, ret.
  rewrite Hdt, Hs. simpl. rewrite Hparse. reflexivity.
Qed.

Lemma no_datetime (due : TodoistDue) :
  datetime due = None \/ datetime due = Some "" ->
  truthy_opt (datetime due) = false.
Proof. intros [-> | ->]; reflexivity. Qed.

(** Without a datetime the formatter goes by the date field alone. *)
Lemma relativeDateTime_date_only (due : TodoistDue) (w : World) :
  truthy_opt (datetime due) = false -> date due <> "" ->
  result (relativeDateTime due) w =
    match parse (date due) "yyyy-MM-dd" (ValidDate (clock w (clockReads w))) with
    | ValidDate t =>
        Returns (nth 0 (split " at" (formatValid t (clock w (S (clockReads w))))) "")
    | InvalidDate => Throws (RangeError "Invalid time value")
    end.
Proof.
  intros Hdt Hd. apply truthy_true in Hd.
  unfold result, relativeDateTime, bind, new_Date, formatRelative, ret, throw.
  unfold truthy_opt in Hdt.
  destruct (datetime due) as [s|]; [rewrite Hdt |]; rewrite Hd; simpl;
    destruct (parse (date due) _ _); reflexivity.
Qed.

(** C7, amended: when the datetime field is absent or empty and the date
    field parses under the layout yyyy-MM-dd, relativeDateTime returns
    the relative formatting of that date with everything from the first
    occurrence of " at" onward removed; the result therefore contains no
    " at" and so no clock time after it. *)
Theorem date_only_drops_clock_time (due : TodoistDue) (w : World) (t : Z) :
  datetime due = None \/ datetime due = Some "" ->
  date due <> "" ->
  parse (date due) "yyyy-MM-dd" (ValidDate (clock w (clockReads w))) = ValidDate t ->
  exists r,
    result (relativeDateTime due) w = Returns r /\
    removed_from_first " at" (formatValid t (clock w (S (clockReads w)))) r /\
    ~ occurs " at" r.
Proof.
  intros Hdt Hd Hparse. apply no_datetime in Hdt.
  exists (before " at" (formatValid t (clock w (S (clockReads w))))).
  split; [| split].
  - rewrite (relativeDateTime_date_only due w Hdt Hd), Hparse, split_first.
    reflexivity.
  - apply before_removed.
  - apply before_clean. discriminate.
Qed.

(** C2, amended: when the datetime field is absent or empty and the date
    field is empty, relativeDateTime returns the empty string and raises
    nothing. *)
Theorem empty_descriptor_gives_empty_string (due : TodoistDue) (w : World) :
  datetime due = None \/ datetime due = Some "" -> date due = "" ->
  result (relativeDateTime due) w = Returns "".
Proof.
  intros Hdt Hd. unfold result, relativeDateTime, bind, ret.
  rewrite Hd. destruct Hdt as [-> | ->]; reflexivity.
Qed.

(** A non-empty field that fails to parse is not turned into the empty
    string: the Invalid Date that [parse] returns is an object, passes
    the test of definedness and goes to formatRelative, which raises. *)
Lemma unparseable_field_raises (due : TodoistDue) (w : World) :
  (forall s, datetime due = Some s -> s <> "" ->
     parse s "yyyy-MM-dd'T'HH:mm:ssXXX" (ValidDate (clock w (clockReads w)))
       = InvalidDate ->
     result (relativeDateTime due) w = Throws (RangeError "Invalid time value")) /\
  (datetime due = None \/ datetime due = Some "" -> date due <> "" ->
     parse (date due) "yyyy-MM-dd" (ValidDate (clock w (clockReads w)))
       = InvalidDate ->
     result (relativeDateTime due) w = Throws (RangeError "Invalid time value")).
Proof.
  split.
  - intros s Hdt Hs Hparse. apply truthy_true in Hs.
    unfold result, relativeDateTime, bind, new_Date, formatRelative, ret.
    rewrite Hdt, Hs. simpl. rewrite Hparse. reflexivity.
  - intros Hdt Hd Hparse. apply no_datetime in Hdt.
    rewrite (relativeDateTime_date_only due w Hdt Hd), Hparse. reflexivity.
Qed.

Lemma reads_now_first (w : World) (now : Z) :
  reads_now w now -> clock w (clockReads w) = now.
Proof. intros Hw. apply Hw. lia. Qed.

Lemma reads_now_second (w : World) (now : Z) :
  reads_now w now -> clock w (S (clockReads w)) = now.
Proof. intros Hw. apply Hw. lia. Qed.

(** The result is a function of the descriptor and of the first two
    clock readings, and the run touches neither the settings nor the
    network. *)
Lemma relativeDateTime_reads (due : TodoistDue) (w1 w2 : World) :
  clock w1 (clockReads w1) = clock w2 (clockReads w2) ->
  clock w1 (S (clockReads w1)) = clock w2 (S (clockReads w2)) ->
  result (relativeDateTime due) w1 = result (relativeDateTime due) w2.
Proof.
  intros H0 H1.
  unfold result, relativeDateTime, bind, new_Date, formatRelative, ret, throw.
  destruct (datetime due) as [s|]; [destruct (truthy s) |]; simpl.
  - rewrite H0, H1. destruct (parse s _ _); reflexivity.
  - destruct (truthy (date due)); simpl; [| reflexivity].
    rewrite H0, H1. destruct (parse (date due) _ _); reflexivity.
  - destruct (truthy (date due)); simpl; [| reflexivity].
    rewrite H0, H1. destruct (parse (date due) _ _); reflexivity.
Qed.

Lemma relativeDateTime_pure (due : TodoistDue) (w : World) :
  localStorage (after (relativeDateTime due) w) = localStorage w /\
  fetched (after (relativeDateTime due) w) = fetched w.
Proof.
  unfold after, relativeDateTime, bind, new_Date, formatRelative, ret, throw.
  destruct (datetime due) as [s|]; [destruct (truthy s) |]; simpl.
  - destruct (parse s _ _); simpl; split; reflexivity.
  - destruct (truthy (date due)); simpl; [destruct (parse (date due) _ _) |];
      simpl; split; reflexivity.
  - destruct (truthy (date due)); simpl; [destruct (parse (date due) _ _) |];
      simpl; split; reflexivity.
Qed.

(** C8: relativeDateTime is a function of the descriptor and the current
    moment: two calls with the same descriptor, in any two worlds whose
    clocks read the same [now], end alike, with the same string or the
    same error; and a call changes neither the settings nor the log of
    network calls. *)
Theorem relativeDateTime_deterministic (due : TodoistDue) (now : Z) (w1 w2 : World) :
  reads_now w1 now -> reads_now w2 now ->
  result (relativeDateTime due) w1 = result (relativeDateTime due) w2 /\
  localStorage (after (relativeDateTime due) w1) = localStorage w1 /\
  fetched (after (relativeDateTime due) w1) = fetched w1.
Proof.
  intros Hw1 Hw2. split; [| apply relativeDateTime_pure].
  apply relativeDateTime_reads.
  - rewrite (reads_now_first w1 now Hw1), (reads_now_first w2 now Hw2). reflexivity.
  - rewrite (reads_now_second w1 now Hw1), (reads_now_second w2 now Hw2). reflexivity.
Qed.

End FormatterFacts.

(** ** The app shell *)

Section AppFacts.

Context (backgroundImgUrl : string).

(** C10: when no background image URL is stored, the read of the setting
    gives null and the computed style is "url(null) no-repeat center
    center fixed"; the style is empty exactly when the empty string is
    stored. *)
Theorem absent_background_is_url_null (w : World) :
  (localStorage w !! backgroundImgUrl = None ->
     result (App_imageStyle backgroundImgUrl) w =
       Returns "url(null) no-repeat center center fixed") /\
  (result (App_imageStyle backgroundImgUrl) w = Returns "" <->
     localStorage w !! backgroundImgUrl = Some "").
Proof.
  unfold result, App_imageStyle, bind, getItem, ret. simpl. split.
  - intros ->. reflexivity.
  - destruct (localStorage w !! backgroundImgUrl) as [s|]; simpl.
    + destruct (String.eqb_spec s "") as [-> | Hne]; simpl.
      * split; reflexivity.
      * split; [discriminate | congruence].
    + split; discriminate.
Qed.

End AppFacts.

(** ** The theorems at work on concrete worlds *)

Lemma missing_credential_witness :
  localStorage Fixture.signedOut !! todoistApiKey Fixture.keys = None /\
  result (closeTask Fixture.keys "2995104339") Fixture.signedOut
    = Throws (Error "No Todoist API key.") /\
  fetched (after (closeTask Fixture.keys "2995104339") Fixture.signedOut) = [].
Proof.
  split; [reflexivity |].
  apply (missing_credential_fails_before_fetch Fixture.keys Fixture.signedOut).
  reflexivity.
Defined.

Lemma no_content_witness :
  status Fixture.noContent = 204 /\
  answered (closeTask Fixture.keys "2995104339") Fixture.closing Fixture.noContent [] /\
  result (closeTask Fixture.keys "2995104339") Fixture.closing = Throws SyntaxError /\
  result (getProjects Fixture.keys) Fixture.closing = Returns (JObject []).
Proof.
  assert (answered (closeTask Fixture.keys "2995104339") Fixture.closing
            Fixture.noContent []) as Hclose
    by (eexists; vm_compute; reflexivity).
  assert (answered (getProjects Fixture.keys) Fixture.closing
            Fixture.noContent []) as Hget
    by (eexists; vm_compute; reflexivity).
  split; [reflexivity | split; [exact Hclose | split]].
  - exact (proj2 (proj2
      (no_content_result Fixture.keys Fixture.closing Fixture.noContent [] eq_refl))
      "2995104339" Hclose).
  - exact (proj1 (proj2
      (no_content_result Fixture.keys Fixture.closing Fixture.noContent [] eq_refl))
      Hget).
Defined.

Lemma other_status_witness :
  localStorage Fixture.refused !! todoistApiKey Fixture.keys = Some Fixture.apiKey /\
  Fixture.apiKey <> "" /\
  status Fixture.forbidden <> 200 /\ status Fixture.forbidden <> 204 /\
  server Fixture.refused (fetched Fixture.refused)
    (call "POST" "tasks/2995104339/close" Fixture.apiKey None)
    = Responded Fixture.forbidden /\
  (result (closeTask Fixture.keys "2995104339") Fixture.refused
     = Throws (Error "Forbidden") /\
   fetched (after (closeTask Fixture.keys "2995104339") Fixture.refused)
     = [(call "POST" "tasks/2995104339/close" Fixture.apiKey None,
         Responded Fixture.forbidden)]) /\
  (result (getProjects Fixture.keys) Fixture.refused = Throws (Error "Forbidden") /\
   fetched (after (getProjects Fixture.keys) Fixture.refused)
     = [(call "GET" "projects" Fixture.apiKey None, Responded Fixture.forbidden)]) /\
  (result (getTasks Fixture.keys) Fixture.refused = Throws (Error "Forbidden") /\
   fetched (after (getTasks Fixture.keys) Fixture.refused)
     = [(call "GET" "tasks?filter=(today | overdue) & !assigned to: others"
           Fixture.apiKey None,
         Responded Fixture.forbidden)]).
Proof.
  assert (Fixture.apiKey <> "") as Hne by discriminate.
  assert (status Fixture.forbidden <> 200) as H200 by (simpl; lia).
  assert (status Fixture.forbidden <> 204) as H204 by (simpl; lia).
  pose proof (other_status_fails_with_status_text Fixture.keys Fixture.refused
                Fixture.apiKey Fixture.forbidden eq_refl Hne H200 H204)
    as (Htasks & Hprojects & Hclose).
  split; [reflexivity | split; [exact Hne | split; [exact H200 | split; [exact H204 |]]]].
  split; [reflexivity | split; [| split]].
  - exact (Hclose "2995104339" _ eq_refl eq_refl).
  - exact (Hprojects _ eq_refl eq_refl).
  - exact (Htasks _ eq_refl eq_refl).
Defined.





Lemma datetime_witness :
  let due := Fixture.due "2024-03-10" (Some "2024-03-10T14:30:00+00:00") in
  datetime due = Some "2024-03-10T14:30:00+00:00" /\
  "2024-03-10T14:30:00+00:00" <> "" /\
  @parse Reference.dateFns "2024-03-10T14:30:00+00:00" "yyyy-MM-dd'T'HH:mm:ssXXX"
    (ValidDate Fixture.march10_9am) = ValidDate 1710081000000 /\
  result (@relativeDateTime Reference.dateFns due) Fixture.sunday
    = Returns "today at 2:30 PM".
Proof.
  assert ("2024-03-10T14:30:00+00:00" <> "") as Hne by discriminate.
  split; [reflexivity | split; [exact Hne | split; [reflexivity |]]].
  exact (@datetime_takes_precedence Reference.dateFns
           (Fixture.due "2024-03-10" (Some "2024-03-10T14:30:00+00:00"))
           Fixture.sunday "2024-03-10T14:30:00+00:00" 1710081000000
           eq_refl Hne eq_refl).
Defined.

Lemma date_only_witness :
  let due := Fixture.due "2024-03-10" None in
  datetime due = None /\ date due <> "" /\
  @parse Reference.dateFns "2024-03-10" "yyyy-MM-dd" (ValidDate Fixture.march10_9am)
    = ValidDate 1710028800000 /\
  exists r,
    result (@relativeDateTime Reference.dateFns due) Fixture.sunday = Returns r /\
    removed_from_first " at" "today at 12:00 AM" r /\
    ~ occurs " at" r.
Proof.
  assert (date (Fixture.due "2024-03-10" None) <> "") as Hne by discriminate.
  split; [reflexivity | split; [exact Hne | split; [reflexivity |]]].
  exact (@date_only_drops_clock_time Reference.dateFns
           (Fixture.due "2024-03-10" None) Fixture.sunday 1710028800000
           (or_introl eq_refl) Hne eq_refl).
Defined.

(** C7 as it is worded does not hold: the datetime does not parse, the
    date does, and the formatter raises instead of formatting the date. *)
Lemma unparseable_datetime_hides_date :
  let due := Fixture.due "2024-03-10" (Some "2024-03-10 14:30") in
  @parse Reference.dateFns "2024-03-10 14:30" "yyyy-MM-dd'T'HH:mm:ssXXX"
    (ValidDate Fixture.march10_9am) = InvalidDate /\
  @parse Reference.dateFns "2024-03-10" "yyyy-MM-dd" (ValidDate Fixture.march10_9am)
    = ValidDate 1710028800000 /\
  result (@relativeDateTime Reference.dateFns due) Fixture.sunday
    = Throws (RangeError "Invalid time value") /\
  forall r, result (@relativeDateTime Reference.dateFns due) Fixture.sunday <> Returns r.
Proof.
  split; [reflexivity | split; [reflexivity | split; [reflexivity |]]].
  intros r. vm_compute. discriminate.
Qed.

Lemma empty_descriptor_witness :
  let due := Fixture.due "" (Some "") in
  (datetime due = None \/ datetime due = Some "") /\ date due = "" /\
  result (@relativeDateTime Reference.dateFns due) Fixture.sunday = Returns "".
Proof.
  split; [right; reflexivity | split; [reflexivity |]].
  exact (@empty_descriptor_gives_empty_string Reference.dateFns
           (Fixture.due "" (Some "")) Fixture.sunday (or_intror eq_refl) eq_refl).
Defined.

(** C2 as it is worded does not hold: neither field parses, both being
    malformed, and the formatter raises instead of returning the empty
    string. *)
Lemma malformed_fields_raise :
  let due := Fixture.due "10/03/2024" (Some "2024-03-10 14:30") in
  @parse Reference.dateFns "2024-03-10 14:30" "yyyy-MM-dd'T'HH:mm:ssXXX"
    (ValidDate Fixture.march10_9am) = InvalidDate /\
  @parse Reference.dateFns "10/03/2024" "yyyy-MM-dd" (ValidDate Fixture.march10_9am)
    = InvalidDate /\
  result (@relativeDateTime Reference.dateFns due) Fixture.sunday
    = Throws (RangeError "Invalid time value") /\
  result (@relativeDateTime Reference.dateFns due) Fixture.sunday <> Returns "".
Proof.
  split; [reflexivity | split; [reflexivity | split; [reflexivity |]]].
  vm_compute. discriminate.
Qed.

Lemma deterministic_witness :
  let due := Fixture.due "2024-03-10" None in
  reads_now Fixture.sunday Fixture.march10_9am /\
  reads_now Fixture.sundayOnline Fixture.march10_9am /\
  result (@relativeDateTime Reference.dateFns due) Fixture.sunday
    = result (@relativeDateTime Reference.dateFns due) Fixture.sundayOnline.
Proof.
  assert (reads_now Fixture.sunday Fixture.march10_9am) as H1
    by (intros k _; reflexivity).
  assert (reads_now Fixture.sundayOnline Fixture.march10_9am) as H2
    by (intros k _; reflexivity).
  split; [exact H1 | split; [exact H2 |]].
  exact (proj1 (@relativeDateTime_deterministic Reference.dateFns
                  (Fixture.due "2024-03-10" None) Fixture.march10_9am
                  Fixture.sunday Fixture.sundayOnline H1 H2)).
Defined.

Lemma background_witness :
  localStorage Fixture.sunday !! Fixture.backgroundImgUrl = None /\
  result (App_imageStyle Fixture.backgroundImgUrl) Fixture.sunday
    = Returns "url(null) no-repeat center center fixed".
Proof.
  split; [reflexivity |].
  exact (proj1 (absent_background_is_url_null Fixture.backgroundImgUrl Fixture.sunday)
           eq_refl).
Defined.

(** ** The scenarios of the specification, run *)

Example scenario_date_only :
  result (@relativeDateTime Reference.dateFns (Fixture.due "2024-03-10" None))
    Fixture.sunday = Returns "today".
Proof. reflexivity. Qed.

Example scenario_datetime :
  result (@relativeDateTime Reference.dateFns
            (Fixture.due "2024-03-10" (Some "2024-03-10T14:30:00+00:00")))
    Fixture.sunday = Returns "today at 2:30 PM".
Proof. reflexivity. Qed.

Example scenario_nothing_set :
  result (@relativeDateTime Reference.dateFns (Fixture.due "" None)) Fixture.sunday
    = Returns "".
Proof. reflexivity. Qed.

Example scenario_last_week :
  result (@relativeDateTime Reference.dateFns (Fixture.due "2024-03-07" None))
    Fixture.sunday = Returns "last Thursday".
Proof. reflexivity. Qed.

Example scenario_long_ago :
  result (@relativeDateTime Reference.dateFns (Fixture.due "2023-12-31" None))
    Fixture.sunday = Returns "12/31/2023".
Proof. reflexivity. Qed.

Example scenario_stored_filter :
  url <$> calls (getTasks Fixture.keys) (Fixture.filtered "p1")
    = ["https://api.todoist.com/rest/v2/tasks?filter=p1?"].
Proof. vm_compute. reflexivity. Qed.

Example scenario_close_request :
  calls (closeTask Fixture.keys "2995104339") Fixture.closing
    = [{| url := "https://api.todoist.com/rest/v2/tasks/2995104339/close?";
          method := "POST";
          headers := [("Content-Type", "application/json");
                      ("Authorization",
                       "Bearer 0123456789abcdef0123456789abcdef01234567")];
          body := None |}].
Proof. vm_compute. reflexivity. Qed.

Example scenario_background_set :
  result (App_imageStyle "backgroundImgUrl")
    (Fixture.world {[ "backgroundImgUrl" := "https://example.org/sky.jpg" ]} 0
       NetworkFailure)
    = Returns "url(https://example.org/sky.jpg) no-repeat center center fixed".
Proof. vm_compute. reflexivity. Qed.

Example scenario_background_empty :
  result (App_imageStyle "backgroundImgUrl")
    (Fixture.world {[ "backgroundImgUrl" := "" ]} 0 NetworkFailure)
    = Returns "".
Proof. vm_compute. reflexivity. Qed.

Example split_ex1 : split " at" "today at 2:30 PM" = ["today"; " 2:30 PM"].
Proof. reflexivity. Qed.
Example split_ex2 : split " at" "x at" = ["x"; ""].
Proof. reflexivity. Qed.
Example split_ex3 : split " at" "a at b atc" = ["a"; " b"; "c"].
Proof. reflexivity. Qed.
Example split_ex4 : split " at" "" = [""].
Proof. reflexivity. Qed.
Example split_ex5 : split " at" "03/10/2024" = ["03/10/2024"].
Proof. reflexivity. Qed.
Example split_ex6 : split "aa" "aaaaa" = [""; ""; "a"].
Proof. reflexivity. Qed.


(** * Further facts *)

(** ** The client *)

Section ClientMore.

Context (keys : LocalStorageKeys).

Lemma postData_calls (endpoint : string) (content : option Json) (w : World)
    (key : string) :
  localStorage w !! todoistApiKey keys = Some key -> key <> "" ->
  calls (postData keys endpoint content) w = [call "POST" endpoint key content].
Proof.
  intros Hk Hne. unfold calls, after.
  rewrite (postData_stored keys endpoint content w key Hk Hne). simpl.
  rewrite drop_app_length. reflexivity.
Qed.

Lemma unusable_key (w : World) :
  localStorage w !! todoistApiKey keys = None \/
  localStorage w !! todoistApiKey keys = Some "" ->
  truthy_opt (localStorage w !! todoistApiKey keys) = false.
Proof. intros [-> | ->]; reflexivity. Qed.


(** A key that is stored as the empty string counts as no key: each
    operation fails with "No Todoist API key.", and the world is left
    exactly as it was. *)
Theorem unusable_key_changes_nothing (w : World) :
  localStorage w !! todoistApiKey keys = None \/
  localStorage w !! todoistApiKey keys = Some "" ->
  getTasks keys w = (Throws (Error "No Todoist API key."), w) /\
  getProjects keys w = (Throws (Error "No Todoist API key."), w) /\
  (forall taskId,
     closeTask keys taskId w = (Throws (Error "No Todoist API key."), w)).
Proof.
  intros Hkey. apply unusable_key in Hkey. split; [| split].
  - rewrite getTasks_unfold. apply getData_missing, Hkey.
  - apply getData_missing, Hkey.
  - intros taskId. apply postData_missing, Hkey.
Qed.

(** Each operation makes one network call when a non-empty key is stored
    and none otherwise, whatever the server answers: nothing is ever sent
    twice. *)
Theorem one_call_when_key_is_stored (w : World) :
  let n := if truthy_opt (localStorage w !! todoistApiKey keys) then 1%nat else 0%nat in
  length (calls (getTasks keys) w) = n /\
  length (calls (getProjects keys) w) = n /\
  (forall taskId, length (calls (closeTask keys taskId) w) = n).
Proof.
  destruct (key_cases keys w) as [Hno | (key & Hk & Hne)].
  - rewrite Hno. unfold calls, after. simpl. split; [| split]; [| | intros taskId].
    + rewrite getTasks_unfold, (getData_missing keys _ w Hno). simpl.
      rewrite drop_all. reflexivity.
    + unfold getProjects. rewrite (getData_missing keys _ w Hno). simpl.
      rewrite drop_all. reflexivity.
    + unfold closeTask. rewrite (postData_missing keys _ _ w Hno). simpl.
      rewrite drop_all. reflexivity.
  - assert (truthy_opt (localStorage w !! todoistApiKey keys) = true) as ->
      by (rewrite Hk; apply truthy_true, Hne).
    simpl. split; [| split]; [| | intros taskId].
    + unfold calls, after. rewrite getTasks_unfold.
      rewrite (getData_stored keys _ w key Hk Hne). simpl.
      rewrite drop_app_length. reflexivity.
    + unfold getProjects. rewrite (getData_calls keys _ w key Hk Hne). reflexivity.
    + unfold closeTask. rewrite (postData_calls _ _ w key Hk Hne). reflexivity.
Qed.

(** Every call, of whichever operation, carries two headers: the JSON
    content type and the bearer token, which is the key as it is stored
    when the call is made. *)
Theorem every_call_is_authorized (w : World) (req : Request)
    (outcome : FetchOutcome) (later : list (Request * FetchOutcome)) :
  fetched (after (getTasks keys) w) = fetched w ++ (req, outcome) :: later \/
  fetched (after (getProjects keys) w) = fetched w ++ (req, outcome) :: later \/
  (exists taskId,
     fetched (after (closeTask keys taskId) w) = fetched w ++ (req, outcome) :: later) ->
  exists key,
    localStorage w !! todoistApiKey keys = Some key /\ key <> "" /\
    headers req = [("Content-Type", "application/json");
                   ("Authorization", "Bearer " +:+ key)].
Proof.
  intros [Hlog | [Hlog | [taskId Hlog]]].
  - apply getTasks_issued in Hlog as (key & Hk & Hne & -> & _).
    exists key. repeat split; assumption.
  - apply getData_issued in Hlog as (key & Hk & Hne & -> & _).
    exists key. repeat split; assumption.
  - apply postData_issued in Hlog as (key & Hk & Hne & -> & _).
    exists key. repeat split; assumption.
Qed.

(** With a key stored, getProjects makes a GET of the base URL followed by
    "/projects?", and closeTask a POST of "/tasks/<taskId>/close?" with the
    task id as it is given and with no body. *)
Theorem fixed_endpoint_requests (w : World) (key : string) :
  localStorage w !! todoistApiKey keys = Some key -> key <> "" ->
  calls (getProjects keys) w =
    [{| url := "https://api.todoist.com/rest/v2/projects?";
        method := "GET";
        headers := [("Content-Type", "application/json");
                    ("Authorization", "Bearer " +:+ key)];
        body := None |}] /\
  (forall taskId,
     calls (closeTask keys taskId) w =
       [{| url := "https://api.todoist.com/rest/v2/tasks/" +:+ taskId +:+ "/close?";
           method := "POST";
           headers := [("Content-Type", "application/json");
                       ("Authorization", "Bearer " +:+ key)];
           body := None |}]).
Proof.
  intros Hk Hne. split.
  - unfold getProjects. rewrite (getData_calls keys _ w key Hk Hne). reflexivity.
  - intros taskId. unfold closeTask.
    rewrite (postData_calls _ _ w key Hk Hne). unfold call.
    rewrite !append_assoc. reflexivity.
Qed.


(** What a run of [getData] or [postData] does to the world: nothing, or
    one more entry in the log. *)
Lemma getData_world (endpoint : string) (w : World) :
  after (getData keys endpoint) w = w \/
  exists req outcome, after (getData keys endpoint) w = logCall w req outcome.
Proof.
  unfold after. destruct (key_cases keys w) as [Hno | (key & Hk & Hne)].
  - left. rewrite (getData_missing keys endpoint w Hno). reflexivity.
  - right. rewrite (getData_stored keys endpoint w key Hk Hne). eauto.
Qed.

Lemma postData_world (endpoint : string) (content : option Json) (w : World) :
  after (postData keys endpoint content) w = w \/
  exists req outcome,
    after (postData keys endpoint content) w = logCall w req outcome.
Proof.
  unfold after. destruct (key_cases keys w) as [Hno | (key & Hk & Hne)].
  - left. rewrite (postData_missing keys endpoint content w Hno). reflexivity.
  - right. rewrite (postData_stored keys endpoint content w key Hk Hne). eauto.
Qed.

Lemma world_kept (w w' : World) :
  w' = w \/ (exists req outcome, w' = logCall w req outcome) ->
  localStorage w' = localStorage w /\ clockReads w' = clockReads w /\
  (fetched w' = fetched w \/
   exists req outcome, fetched w' = fetched w ++ [(req, outcome)]).
Proof.
  intros [-> | (req & outcome & ->)].
  - repeat split. left. reflexivity.
  - repeat split. right. exists req, outcome. reflexivity.
Qed.

(** The client only reads the settings: no operation writes to the store
    or reads the clock, and the log of earlier calls is kept as it was,
    with at most the one new call after it. *)
Theorem client_only_adds_to_the_log (w : World) :
  (localStorage (after (getTasks keys) w) = localStorage w /\
   clockReads (after (getTasks keys) w) = clockReads w /\
   (fetched (after (getTasks keys) w) = fetched w \/
    exists req outcome,
      fetched (after (getTasks keys) w) = fetched w ++ [(req, outcome)])) /\
  (localStorage (after (getProjects keys) w) = localStorage w /\
   clockReads (after (getProjects keys) w) = clockReads w /\
   (fetched (after (getProjects keys) w) = fetched w \/
    exists req outcome,
      fetched (after (getProjects keys) w) = fetched w ++ [(req, outcome)])) /\
  (forall taskId,
     localStorage (after (closeTask keys taskId) w) = localStorage w /\
     clockReads (after (closeTask keys taskId) w) = clockReads w /\
     (fetched (after (closeTask keys taskId) w) = fetched w \/
      exists req outcome,
        fetched (after (closeTask keys taskId) w) = fetched w ++ [(req, outcome)])).
Proof.
  split; [| split]; [| | intros taskId]; apply world_kept.
  - exact (getData_world _ w).
  - exact (getData_world _ w).
  - exact (postData_world _ _ w).
Qed.

(** Two worlds with the same key, the same server and the same log give
    [getData] and [postData] the same result and the same call. *)
Lemma getData_frame (endpoint : string) (w1 w2 : World) :
  localStorage w1 !! todoistApiKey keys = localStorage w2 !! todoistApiKey keys ->
  server w1 = server w2 -> fetched w1 = fetched w2 ->
  result (getData keys endpoint) w1 = result (getData keys endpoint) w2 /\
  calls (getData keys endpoint) w1 = calls (getData keys endpoint) w2.
Proof.
  intros Hkey Hserver Hlog. unfold result, calls, after.
  destruct (key_cases keys w1) as [Hno | (key & Hk & Hne)].
  - rewrite (getData_missing keys endpoint w1 Hno).
    rewrite Hkey in Hno. rewrite (getData_missing keys endpoint w2 Hno).
    simpl. rewrite !drop_all. split; reflexivity.
  - rewrite (getData_stored keys endpoint w1 key Hk Hne).
    rewrite Hkey in Hk. rewrite (getData_stored keys endpoint w2 key Hk Hne).
    simpl. rewrite !drop_app_length, Hserver, Hlog. split; reflexivity.
Qed.

Lemma postData_frame (endpoint : string) (content : option Json) (w1 w2 : World) :
  localStorage w1 !! todoistApiKey keys = localStorage w2 !! todoistApiKey keys ->
  server w1 = server w2 -> fetched w1 = fetched w2 ->
  result (postData keys endpoint content) w1
    = result (postData keys endpoint content) w2 /\
  calls (postData keys endpoint content) w1
    = calls (postData keys endpoint content) w2.
Proof.
  intros Hkey Hserver Hlog. unfold result, calls, after.
  destruct (key_cases keys w1) as [Hno | (key & Hk & Hne)].
  - rewrite (postData_missing keys endpoint content w1 Hno).
    rewrite Hkey in Hno. rewrite (postData_missing keys endpoint content w2 Hno).
    simpl. rewrite !drop_all. split; reflexivity.
  - rewrite (postData_stored keys endpoint content w1 key Hk Hne).
    rewrite Hkey in Hk. rewrite (postData_stored keys endpoint content w2 key Hk Hne).
    simpl. rewrite !drop_app_length, Hserver, Hlog. split; reflexivity.
Qed.

(** The stored filter matters to getTasks only: whatever is stored under
    the filter's name, getProjects and closeTask send the same call and
    end alike. *)
Theorem filter_matters_to_getTasks_only (w : World) (f : string) :
  todoistFilter keys <> todoistApiKey keys ->
  (result (getProjects keys) (storeSetting (todoistFilter keys) f w)
     = result (getProjects keys) w /\
   calls (getProjects keys) (storeSetting (todoistFilter keys) f w)
     = calls (getProjects keys) w) /\
  (forall taskId,
     result (closeTask keys taskId) (storeSetting (todoistFilter keys) f w)
       = result (closeTask keys taskId) w /\
     calls (closeTask keys taskId) (storeSetting (todoistFilter keys) f w)
       = calls (closeTask keys taskId) w).
Proof.
  intros Hdistinct.
  assert (localStorage (storeSetting (todoistFilter keys) f w) !! todoistApiKey keys
          = localStorage w !! todoistApiKey keys) as Hkey
    by (simpl; apply lookup_insert_ne; exact Hdistinct).
  split; [| intros taskId].
  - apply getData_frame; [exact Hkey | reflexivity | reflexivity].
  - apply postData_frame; [exact Hkey | reflexivity | reflexivity].
Qed.

(** A filter takes effect with the next call: once a non-empty filter is
    stored, getTasks asks for it; once the empty string is stored, getTasks
    asks for the default filter again. *)
Theorem stored_filter_takes_effect (w : World) (key : string) :
  todoistFilter keys <> todoistApiKey keys ->
  localStorage w !! todoistApiKey keys = Some key -> key <> "" ->
  (forall f, f <> "" ->
     calls (getTasks keys) (storeSetting (todoistFilter keys) f w)
       = [call "GET" ("tasks?filter=" +:+ f) key None]) /\
  calls (getTasks keys) (storeSetting (todoistFilter keys) "" w)
    = [call "GET" "tasks?filter=(today | overdue) & !assigned to: others" key None].
Proof.
  intros Hdistinct Hk Hne.
  assert (forall f, calls (getTasks keys) (storeSetting (todoistFilter keys) f w)
            = [call "GET" ("tasks?filter=" +:+ or_else (Some f) defaultFilter) key None])
    as Hcalls.
  { intros f.
    assert (localStorage (storeSetting (todoistFilter keys) f w) !! todoistApiKey keys
            = Some key) as Hk'
      by (simpl; rewrite lookup_insert_ne; [exact Hk | exact Hdistinct]).
    pose proof (getData_calls keys
      ("tasks?filter=" +:+ or_else (Some f) defaultFilter)
      (storeSetting (todoistFilter keys) f w) key Hk' Hne) as Hget.
    unfold calls, after in *. rewrite getTasks_unfold. simpl localStorage.
    rewrite lookup_insert_eq. exact Hget. }
  split.
  - intros f Hf. rewrite Hcalls, (or_else_stored f _ Hf). reflexivity.
  - rewrite Hcalls. reflexivity.
Qed.

(** A key takes effect with the next call: once a non-empty key is stored,
    whatever was stored before, the call carries it; once the empty string
    is stored, the operations fail without calling. *)
Theorem stored_key_takes_effect (w : World) :
  (forall key, key <> "" ->
     calls (getProjects keys) (storeSetting (todoistApiKey keys) key w)
       = [call "GET" "projects" key None] /\
     forall taskId,
       calls (closeTask keys taskId) (storeSetting (todoistApiKey keys) key w)
         = [call "POST" ("tasks/" +:+ taskId +:+ "/close") key None]) /\
  (result (getProjects keys) (storeSetting (todoistApiKey keys) "" w)
     = Throws (Error "No Todoist API key.") /\
   calls (getProjects keys) (storeSetting (todoistApiKey keys) "" w) = []).
Proof.
  split.
  - intros key Hne.
    assert (localStorage (storeSetting (todoistApiKey keys) key w) !! todoistApiKey keys
            = Some key) as Hk by (simpl; apply lookup_insert_eq).
    split; [| intros taskId].
    + exact (getData_calls keys _ _ key Hk Hne).
    + exact (postData_calls _ _ _ key Hk Hne).
  - assert (truthy_opt (localStorage (storeSetting (todoistApiKey keys) "" w)
                          !! todoistApiKey keys) = false) as Hno
      by (simpl; rewrite lookup_insert_eq; reflexivity).
    unfold result, calls, after, getProjects.
    rewrite (getData_missing keys _ _ Hno). simpl. rewrite drop_all.
    split; reflexivity.
Qed.

End ClientMore.

(** ** The formatter *)

Section FormatterMore.

Context `{DateFns}.

(** With a datetime the formatter goes by it alone. *)
Lemma relativeDateTime_datetime (due : TodoistDue) (w : World) (s : string) :
  datetime due = Some s -> s <> "" ->
  result (relativeDateTime due) w =
    match parse s "yyyy-MM-dd'T'HH:mm:ssXXX" (ValidDate (clock w (clockReads w))) with
    | ValidDate t => Returns (formatValid t (clock w (S (clockReads w))))
    | InvalidDate => Throws (RangeError "Invalid time value")
    end.
Proof.
  intros Hdt Hs. apply truthy_true in Hs.
  unfold result, relativeDateTime, bind, new_Date, formatRelative, ret, throw.
  rewrite Hdt, Hs. simpl. destruct (parse s _ _); reflexivity.
Qed.

Lemma relativeDateTime_nothing (due : TodoistDue) (w : World) :
  truthy_opt (datetime due) = false -> date due = "" ->
  result (relativeDateTime due) w = Returns "".
Proof.
  intros Hdt Hd. unfold result, relativeDateTime, bind, ret.
  rewrite Hd. unfold truthy_opt in Hdt.
  destruct (datetime due) as [s|]; [rewrite Hdt |]; reflexivity.
Qed.

(** The field the formatter reads: the datetime when it is a non-empty
    string, else the date. *)
Lemma field_cases (due : TodoistDue) :
  (exists s, datetime due = Some s /\ s <> "") \/
  (truthy_opt (datetime due) = false /\ date due <> "") \/
  (truthy_opt (datetime due) = false /\ date due = "").
Proof.
  destruct (datetime due) as [s|] eqn:Hdt; simpl.
  - destruct (truthy s) eqn:Hs.
    + left. exists s. split; [reflexivity | apply truthy_true; exact Hs].
    + right. destruct (String.eqb_spec (date due) ""); [right | left]; split; auto.
  - right. destruct (String.eqb_spec (date due) ""); [right | left]; split; auto.
Qed.

(** relativeDateTime raises exactly when the field it reads, the datetime
    when that is a non-empty string and else the date, is non-empty and
    does not parse; what it raises then is the RangeError "Invalid time
    value" of formatRelative. *)
Theorem raises_iff_field_unparseable (due : TodoistDue) (w : World) (e : JsError) :
  result (relativeDateTime due) w = Throws e <->
  e = RangeError "Invalid time value" /\
  ((exists s, datetime due = Some s /\ s <> "" /\
      parse s "yyyy-MM-dd'T'HH:mm:ssXXX" (ValidDate (clock w (clockReads w)))
        = InvalidDate) \/
   (truthy_opt (datetime due) = false /\ date due <> "" /\
      parse (date due) "yyyy-MM-dd" (ValidDate (clock w (clockReads w)))
        = InvalidDate)).
Proof.
  destruct (field_cases due) as [(s & Hdt & Hs) | [(Hdt & Hd) | (Hdt & Hd)]].
  - rewrite (relativeDateTime_datetime due w s Hdt Hs).
    destruct (parse s _ _) eqn:Hp; split.
    + discriminate.
    + intros (_ & [(s' & Hdt' & _ & Hp') | (Hno & _)]).
      * rewrite Hdt in Hdt'. injection Hdt' as <-. congruence.
      * rewrite Hdt in Hno. apply truthy_true in Hs. simpl in Hno. congruence.
    + intros [= <-]. split; [reflexivity | left; eauto].
    + intros (-> & _). reflexivity.
  - rewrite (relativeDateTime_date_only due w Hdt Hd).
    destruct (parse (date due) _ _) eqn:Hp; split.
    + discriminate.
    + intros (_ & [(s' & Hdt' & Hs' & _) | (_ & _ & Hp')]).
      * rewrite Hdt' in Hdt. apply truthy_true in Hs'. simpl in Hdt. congruence.
      * congruence.
    + intros [= <-]. split; [reflexivity | right; auto].
    + intros (-> & _). reflexivity.
  - rewrite (relativeDateTime_nothing due w Hdt Hd). split.
    + discriminate.
    + intros (_ & [(s' & Hdt' & Hs' & _) | (_ & Hd' & _)]).
      * rewrite Hdt' in Hdt. apply truthy_true in Hs'. simpl in Hdt. congruence.
      * contradiction.
Qed.

(** relativeDateTime reads one field: two descriptors with the same
    non-empty datetime end alike whatever their other fields hold, the
    date included; and two descriptors without a datetime, absent or
    empty, end alike when their dates are the same. *)
Theorem one_field_decides (due1 due2 : TodoistDue) (w : World) :
  (forall s, datetime due1 = Some s -> datetime due2 = Some s -> s <> "" ->
     result (relativeDateTime due1) w = result (relativeDateTime due2) w) /\
  (truthy_opt (datetime due1) = false -> truthy_opt (datetime due2) = false ->
   date due1 = date due2 ->
     result (relativeDateTime due1) w = result (relativeDateTime due2) w).
Proof.
  split.
  - intros s H1 H2 Hs.
    rewrite (relativeDateTime_datetime due1 w s H1 Hs),
            (relativeDateTime_datetime due2 w s H2 Hs). reflexivity.
  - intros H1 H2 Hd. destruct (String.eqb_spec (date due1) "") as [He | Hne].
    + rewrite (relativeDateTime_nothing due1 w H1 He).
      rewrite Hd in He. rewrite (relativeDateTime_nothing due2 w H2 He). reflexivity.
    + rewrite (relativeDateTime_date_only due1 w H1 Hne).
      rewrite Hd in Hne. rewrite (relativeDateTime_date_only due2 w H2 Hne), Hd.
      reflexivity.
Qed.

End FormatterMore.

(** ** The further facts at work on concrete worlds *)


Lemma unusable_key_witness :
  localStorage Fixture.blankKey !! todoistApiKey Fixture.keys = Some "" /\
  getTasks Fixture.keys Fixture.blankKey
    = (Throws (Error "No Todoist API key."), Fixture.blankKey).
Proof.
  split; [reflexivity |].
  exact (proj1 (unusable_key_changes_nothing Fixture.keys Fixture.blankKey
                  (or_intror eq_refl))).
Defined.

Lemma authorized_witness :
  exists req outcome,
    fetched (after (closeTask Fixture.keys "2995104339") Fixture.closing)
      = fetched Fixture.closing ++ [(req, outcome)] /\
    exists key,
      localStorage Fixture.closing !! todoistApiKey Fixture.keys = Some key /\
      key <> "" /\
      headers req = [("Content-Type", "application/json");
                     ("Authorization", "Bearer " +:+ key)].
Proof.
  eexists. eexists.
  assert (fetched (after (closeTask Fixture.keys "2995104339") Fixture.closing)
          = fetched Fixture.closing
              ++ [(call "POST" "tasks/2995104339/close" Fixture.apiKey None,
                   Responded Fixture.noContent)]) as Hlog
    by (vm_compute; reflexivity).
  split; [exact Hlog |].
  exact (every_call_is_authorized Fixture.keys Fixture.closing _ _ []
           (or_intror (or_intror (ex_intro _ "2995104339" Hlog)))).
Defined.

Lemma fixed_endpoint_witness :
  localStorage Fixture.closing !! todoistApiKey Fixture.keys = Some Fixture.apiKey /\
  Fixture.apiKey <> "" /\
  calls (closeTask Fixture.keys "2995104339") Fixture.closing =
    [{| url := "https://api.todoist.com/rest/v2/tasks/2995104339/close?";
        method := "POST";
        headers := [("Content-Type", "application/json");
                    ("Authorization",
                     "Bearer 0123456789abcdef0123456789abcdef01234567")];
        body := None |}].
Proof.
  assert (Fixture.apiKey <> "") as Hne by discriminate.
  split; [reflexivity | split; [exact Hne |]].
  exact (proj2 (fixed_endpoint_requests Fixture.keys Fixture.closing Fixture.apiKey
                  eq_refl Hne) "2995104339").
Defined.


Lemma filter_only_witness :
  todoistFilter Fixture.keys <> todoistApiKey Fixture.keys /\
  result (getProjects Fixture.keys)
    (storeSetting (todoistFilter Fixture.keys) "p1" Fixture.listing)
    = result (getProjects Fixture.keys) Fixture.listing.
Proof.
  assert (todoistFilter Fixture.keys <> todoistApiKey Fixture.keys) as Hd
    by discriminate.
  split; [exact Hd |].
  exact (proj1 (proj1 (filter_matters_to_getTasks_only Fixture.keys Fixture.listing
                         "p1" Hd))).
Defined.

Lemma stored_filter_witness :
  todoistFilter Fixture.keys <> todoistApiKey Fixture.keys /\
  localStorage Fixture.unfiltered !! todoistApiKey Fixture.keys = Some Fixture.apiKey /\
  Fixture.apiKey <> "" /\
  calls (getTasks Fixture.keys)
    (storeSetting (todoistFilter Fixture.keys) "@work & p1" Fixture.unfiltered)
    = [call "GET" "tasks?filter=@work & p1" Fixture.apiKey None].
Proof.
  assert (todoistFilter Fixture.keys <> todoistApiKey Fixture.keys) as Hd
    by discriminate.
  assert (Fixture.apiKey <> "") as Hne by discriminate.
  split; [exact Hd | split; [reflexivity | split; [exact Hne |]]].
  apply (proj1 (stored_filter_takes_effect Fixture.keys Fixture.unfiltered
                  Fixture.apiKey Hd eq_refl Hne)).
  discriminate.
Defined.

Lemma stored_key_witness :
  result (getProjects Fixture.keys) Fixture.signedOut
    = Throws (Error "No Todoist API key.") /\
  calls (getProjects Fixture.keys)
    (storeSetting (todoistApiKey Fixture.keys) "f00d" Fixture.signedOut)
    = [call "GET" "projects" "f00d" None].
Proof.
  split; [reflexivity |].
  apply (proj1 (stored_key_takes_effect Fixture.keys Fixture.signedOut)).
  discriminate.
Defined.

Lemma raises_witness :
  let due := Fixture.due "2024-03-10" (Some "2024-03-10T14:30:00") in
  @parse Reference.dateFns "2024-03-10T14:30:00" "yyyy-MM-dd'T'HH:mm:ssXXX"
    (ValidDate Fixture.march10_9am) = InvalidDate /\
  result (@relativeDateTime Reference.dateFns due) Fixture.sunday
    = Throws (RangeError "Invalid time value").
Proof.
  split; [reflexivity |].
  apply (proj2 (@raises_iff_field_unparseable Reference.dateFns
                  (Fixture.due "2024-03-10" (Some "2024-03-10T14:30:00"))
                  Fixture.sunday (RangeError "Invalid time value"))).
  split; [reflexivity | left].
  exists "2024-03-10T14:30:00". split; [reflexivity | split; [discriminate | reflexivity]].
Defined.

Lemma one_field_witness :
  let due1 := Fixture.due "2024-03-10" (Some "2024-03-12T08:00:00Z") in
  let due2 := {| string_ := "every day"; date := "2031-01-01"; is_recurring := true;
                 datetime := Some "2024-03-12T08:00:00Z";
                 timezone := Some "Europe/Paris" |} in
  result (@relativeDateTime Reference.dateFns due1) Fixture.sunday
    = result (@relativeDateTime Reference.dateFns due2) Fixture.sunday.
Proof.
  apply (proj1 (@one_field_decides Reference.dateFns
                  (Fixture.due "2024-03-10" (Some "2024-03-12T08:00:00Z"))
                  {| string_ := "every day"; date := "2031-01-01"; is_recurring := true;
                     datetime := Some "2024-03-12T08:00:00Z";
                     timezone := Some "Europe/Paris" |}
                  Fixture.sunday) "2024-03-12T08:00:00Z");
    [reflexivity | reflexivity | discriminate].
Defined.

Example scenario_not_json :
  result (getProjects Fixture.keys)
    (Fixture.world Fixture.keyOnly 0 (Responded Fixture.garbled))
    = Throws SyntaxError.
Proof. vm_compute. reflexivity. Qed.

Example scenario_two_days_ahead :
  result (@relativeDateTime Reference.dateFns
            (Fixture.due "2024-03-10" (Some "2024-03-12T08:00:00Z")))
    Fixture.sunday = Returns "Tuesday at 8:00 AM".
Proof. reflexivity. Qed.
